(** * gurume: area-name canonicalisation and the MCP tool boundary

    A shallow embedding of

    - [src/tabelog/area_mapping.py]: the tables [PREFECTURE_MAPPING] and
      [CITY_MAPPING] and the resolver [get_area_slug];
    - [src/gurume/server.py]: the tool handlers [_search_restaurants],
      [_get_area_suggestions], [_get_keyword_suggestions] and the
      dispatcher [call_tool];
    - [scripts/verify_js_rendering.py]: the statistics of
      [analyze_results].

    Python [str] values are sequences of Unicode code points, Python
    [dict]s are finite maps ([gmap]), and a handler that may raise is a
    function into [result]. *)

From Stdlib Require Import ZArith NArith Ascii String DecimalString.
From stdpp Require Import gmap strings list fin_maps.

(** ** Python strings *)

Module PyStr.

Local Open Scope N_scope.

(** A code point, and a [str] as the sequence of its code points
    ([len], indexing, slicing and [endswith] all count code points). *)
Abbreviation codepoint := N (only parsing).
Abbreviation str := (list N) (only parsing).

(** The literals of the sources are written in UTF-8; [u] reads such
    a literal into its code points. *)
Fixpoint utf8_decode (bs : list N) : str :=
  match bs with
  | [] => []
  | b0 :: r0 =>
    if b0 <? 0x80 then b0 :: utf8_decode r0
    else if b0 <? 0xE0 then
      match r0 with
      | b1 :: r1 => ((b0 - 0xC0) * 0x40 + (b1 - 0x80)) :: utf8_decode r1
      | _ => []
      end
    else if b0 <? 0xF0 then
      match r0 with
      | b1 :: b2 :: r2 =>
        ((b0 - 0xE0) * 0x1000 + (b1 - 0x80) * 0x40 + (b2 - 0x80))
          :: utf8_decode r2
      | _ => []
      end
    else
      match r0 with
      | b1 :: b2 :: b3 :: r3 =>
        ((b0 - 0xF0) * 0x40000 + (b1 - 0x80) * 0x1000
         + (b2 - 0x80) * 0x40 + (b3 - 0x80)) :: utf8_decode r3
      | _ => []
      end
  end.

Definition u (s : string) : str :=
  utf8_decode (N_of_ascii <$> list_ascii_of_string s).

(** [s.endswith(sfx)] *)
Definition endswith (s sfx : str) : bool := bool_decide (sfx `suffix_of` s).

(** [l[:stop]] for an integer [stop]: a negative [stop] counts from the
    end, and a [stop] beyond either end is clipped, never an error. *)
Definition slice_to {A} (l : list A) (stop : Z) : list A :=
  if (stop <? 0)%Z then take (Z.to_nat (Z.of_nat (length l) + stop)) l
  else take (Z.to_nat stop) l.

(** [str.isspace] on one code point: the characters that [str.strip()]
    removes. *)
Definition isspace (c : codepoint) : bool :=
  ((0x09 <=? c) && (c <=? 0x0D)) || ((0x1C <=? c) && (c <=? 0x20))
  || (c =? 0x85) || (c =? 0xA0) || (c =? 0x1680)
  || ((0x2000 <=? c) && (c <=? 0x200A))
  || (c =? 0x2028) || (c =? 0x2029) || (c =? 0x202F) || (c =? 0x205F)
  || (c =? 0x3000).

(** [s.strip()]: whitespace is removed at both ends. *)
Fixpoint lstrip (s : str) : str :=
  match s with
  | [] => []
  | c :: r => if isspace c then lstrip r else s
  end.

Definition strip (s : str) : str := reverse (lstrip (reverse (lstrip s))).

(** [s.lower()].  ASCII capitals are lowered, and so is U+212A (KELVIN
    SIGN), the one code point outside ASCII whose lowercase form lies
    inside ASCII.  For every other code point outside ASCII the result of
    CPython contains a code point outside ASCII, and this model leaves the
    code point in place: whether the lowered string equals a given ASCII
    token is the same in both. *)
Definition lower_cp (c : codepoint) : codepoint :=
  if (0x41 <=? c) && (c <=? 0x5A) then c + 0x20
  else if c =? 0x212A then 0x6B
  else c.

Definition lower (s : str) : str := lower_cp <$> s.

End PyStr.
Export PyStr.

(** ** Python dictionaries and exceptions *)

(** A dict display [{k1: v1, k2: v2, ...}] inserts its items from left to
    right, so that a later item replaces an earlier one of the same key. *)
Definition dict_literal {V} (items : list (str * V)) : gmap str V :=
  foldl (λ m kv, <[kv.1 := kv.2]> m) ∅ items.

(* [key in d] is [is_Some (d !! key)], [d[key]] after a successful
   membership test is the value found, and [d.get(key, default)] is
   [default default (d !! key)]. *)

(** ** [src/tabelog/area_mapping.py] *)

Module area_mapping.

Definition PREFECTURE_ITEMS : list (str * str) :=
  [ (u "北海道", u "hokkaido");
    (u "青森県", u "aomori");
    (u "岩手県", u "iwate");
    (u "宮城県", u "miyagi");
    (u "秋田県", u "akita");
    (u "山形県", u "yamagata");
    (u "福島県", u "fukushima");
    (u "茨城県", u "ibaraki");
    (u "栃木県", u "tochigi");
    (u "群馬県", u "gunma");
    (u "埼玉県", u "saitama");
    (u "千葉県", u "chiba");
    (u "東京都", u "tokyo");
    (u "神奈川県", u "kanagawa");
    (u "新潟県", u "niigata");
    (u "富山県", u "toyama");
    (u "石川県", u "ishikawa");
    (u "福井県", u "fukui");
    (u "山梨県", u "yamanashi");
    (u "長野県", u "nagano");
    (u "岐阜県", u "gifu");
    (u "静岡県", u "shizuoka");
    (u "愛知県", u "aichi");
    (u "三重県", u "mie");
    (u "滋賀県", u "shiga");
    (u "京都府", u "kyoto");
    (u "大阪府", u "osaka");
    (u "兵庫県", u "hyogo");
    (u "奈良県", u "nara");
    (u "和歌山県", u "wakayama");
    (u "鳥取県", u "tottori");
    (u "島根県", u "shimane");
    (u "岡山県", u "okayama");
    (u "広島県", u "hiroshima");
    (u "山口県", u "yamaguchi");
    (u "徳島県", u "tokushima");
    (u "香川県", u "kagawa");
    (u "愛媛県", u "ehime");
    (u "高知県", u "kochi");
    (u "福岡県", u "fukuoka");
    (u "佐賀県", u "saga");
    (u "長崎県", u "nagasaki");
    (u "熊本県", u "kumamoto");
    (u "大分県", u "oita");
    (u "宮崎県", u "miyazaki");
    (u "鹿児島県", u "kagoshima");
    (u "沖縄県", u "okinawa") ].

Definition PREFECTURE_MAPPING : gmap str str := dict_literal PREFECTURE_ITEMS.

Definition CITY_ITEMS : list (str * str) :=
  [ (u "東京", u "tokyo");
    (u "大阪", u "osaka");
    (u "京都", u "kyoto");
    (u "北海道", u "hokkaido");
    (u "福岡", u "fukuoka") ].

Definition CITY_MAPPING : gmap str str := dict_literal CITY_ITEMS.

(** The list the [for] loop of [get_area_slug] runs over. *)
Definition SUFFIXES : list str := [u "都"; u "府"; u "県"; u "市"].

(** The [for suffix in [...]] loop, from the suffix it has reached: a hit
    returns from the function, anything else goes on to the next suffix,
    and the end of the list falls through to [return None]. *)
Fixpoint suffix_loop (area_name : str) (suffixes : list str) : option str :=
  match suffixes with
  | [] => None
  | sfx :: rest =>
    if endswith area_name sfx then
      let base_name := slice_to area_name (- Z.of_nat (length sfx)) in
      match PREFECTURE_MAPPING !! base_name with
      | Some slug => Some slug
      | None =>
        match CITY_MAPPING !! base_name with
        | Some slug => Some slug
        | None => suffix_loop area_name rest
        end
      end
    else suffix_loop area_name rest
  end.

Definition get_area_slug (area_name : str) : option str :=
  match PREFECTURE_MAPPING !! area_name with
  | Some slug => Some slug
  | None =>
    match CITY_MAPPING !! area_name with
    | Some slug => Some slug
    | None => suffix_loop area_name SUFFIXES
    end
  end.

End area_mapping.
Export area_mapping.

(** ** The resolution algorithm as the specification words it *)

Module NameCanonicalizer.

(** Steps (1) and (2): exact match against the full-name table, then
    against the short-name alias table. *)
Definition exact_match (name : str) : option str :=
  PREFECTURE_MAPPING !! name ∪ CITY_MAPPING !! name.

(** "if the input ends with that suffix, strip it": the part of [name]
    before [sfx], when there is one. *)
Definition strip_suffix (sfx name : str) : option str :=
  reverse <$> (if decide (reverse sfx `prefix_of` reverse name)
               then Some (drop (length sfx) (reverse name)) else None).

(** Step (3) for one suffix. *)
Definition retry_stripped (name sfx : str) : option str :=
  strip_suffix sfx name ≫= exact_match.

(** First hit wins; absent when no rule matches. *)
Definition resolve (name : str) : option str :=
  exact_match name ∪ foldr (λ sfx later, retry_stripped name sfx ∪ later) None SUFFIXES.

End NameCanonicalizer.

(** Slugs are lowercase ASCII: letters [a] to [z] only, at least one. *)
Definition is_lower_ascii_slug (s : str) : Prop :=
  s ≠ [] ∧ Forall (λ c, (0x61 ≤ c ≤ 0x7A)%N) s.

#[export] Instance is_lower_ascii_slug_dec s : Decision (is_lower_ascii_slug s).
Proof. unfold is_lower_ascii_slug. apply _. Defined.

(** ** Values, exceptions and results *)

(** The values a tool argument can take here: JSON [null], booleans,
    integers and strings. *)
Inductive PyVal :=
| VNone
| VBool (b : bool)
| VInt (z : Z)
| VStr (s : str).

(** Truth value of an object, as tested by [if cuisine:]. *)
Definition truthy (v : PyVal) : bool :=
  match v with
  | VNone => false
  | VBool b => b
  | VInt z => negb (z =? 0)%Z
  | VStr s => negb (bool_decide (s = []))
  end.

(** The exceptions of the handlers.  [ValueError] is the invalid-argument
    condition of the boundary. *)
Inductive exn :=
| ValueError (msg : str)
| AttributeError
| TypeError
| Exception (msg : str).

Inductive result (A : Type) :=
| Ok (a : A)
| Raise (e : exn).
Arguments Ok {A} a.
Arguments Raise {A} e.

#[export] Instance result_ret : MRet result := λ A a, Ok a.
#[export] Instance result_bind : MBind result := λ A B f r,
  match r with
  | Ok a => f a
  | Raise e => Raise e
  end.

(** A call is rejected as invalid-argument when it raises [ValueError]. *)
Definition invalid_argument {A} (r : result A) : Prop :=
  ∃ msg, r = Raise (ValueError msg).

(** A float is carried as its IEEE 754 bit pattern: the handlers copy
    ratings and coordinates and compute nothing with them. *)
Definition float := N.

(** What [json.dumps] is given: lists, dicts in insertion order, scalars. *)
#[local] Unset Elimination Schemes.
Inductive Json :=
| JNull
| JInt (z : Z)
| JFloat (f : float)
| JStr (s : str)
| JList (l : list Json)
| JDict (items : list (str * Json)).
#[local] Set Elimination Schemes.

Definition JOpt {A} (inj : A → Json) (o : option A) : Json :=
  from_option inj JNull o.

(** ** The collaborators of [src/gurume/server.py] *)

Inductive SortType := RANKING | REVIEW_COUNT | NEW_OPEN | STANDARD.

#[export] Instance SortType_eq_dec : EqDecision SortType.
Proof. solve_decision. Defined.

(** The attributes of a restaurant that the search handler reads. *)
Module Restaurant.
Record t := make {
  name : str;
  rating : option float;
  review_count : option Z;
  area : option str;
  genres : list str;
  url : str;
  lunch_price : option str;
  dinner_price : option str;
}.
End Restaurant.

(** The keyword arguments of [SearchRequest(...)] in the search handler. *)
Module SearchRequest.
Record t := make {
  area : PyVal;
  keyword : PyVal;
  genre_code : option str;
  sort_type : SortType;
  max_pages : Z;
}.
End SearchRequest.

Module SearchResponse.
Record t := make { restaurants : list Restaurant.t }.
End SearchResponse.

(** The attributes of an area or keyword suggestion that the suggestion
    handlers read. *)
Module Suggestion.
Record t := make {
  name : str;
  datatype : str;
  id_in_datatype : Z;
  lat : option float;
  lng : option float;
}.
End Suggestion.

Module TextContent.
Record t := make { type : str; text : str }.
End TextContent.

(** What [server.py] imports and calls without defining it: the genre
    table of [gurume.genre_mapping], building and running a request of
    [gurume.search], the two suggestion clients of [gurume.suggest], and
    [json.dumps(_, ensure_ascii=False, indent=2)].  The calls that go to the
    network may raise. *)
Class Imports := {
  get_all_genres : list str;
  get_genre_code : PyVal → option str;
  search : SearchRequest.t → result SearchResponse.t;
  get_area_suggestions_async : PyVal → result (list Suggestion.t);
  get_keyword_suggestions_async : PyVal → result (list Suggestion.t);
  json_dumps : Json → str;
}.

(** ** [src/gurume/server.py] *)

Module server.

Definition sort_map : gmap str SortType :=
  dict_literal
    [ (u "ranking", RANKING);
      (u "review-count", REVIEW_COUNT);
      (u "new-open", NEW_OPEN);
      (u "standard", STANDARD) ].

(** [sort.lower()]: only a [str] has the method. *)
Definition call_lower (sort : PyVal) : result str :=
  match sort with
  | VStr s => Ok (lower s)
  | _ => Raise AttributeError
  end.

(** [sort_type = sort_map.get(sort.lower(), SortType.RANKING)] *)
Definition resolve_sort_type (sort : PyVal) : result SortType :=
  key ← call_lower sort;
  Ok (default RANKING (sort_map !! key)).

(** [response.restaurants[:limit]]: a slice bound is [None], or an
    integer (a [bool] is one); a string is a [TypeError]. *)
Definition slice_limit {A} (l : list A) (limit : PyVal) : result (list A) :=
  match limit with
  | VNone => Ok l
  | VBool b => Ok (slice_to l (if b then 1 else 0))
  | VInt z => Ok (slice_to l z)
  | VStr _ => Raise TypeError
  end.

(** The dict appended to [restaurants] for one restaurant [r]. *)
Definition restaurant_dict (r : Restaurant.t) : Json :=
  JDict
    [ (u "name", JStr (Restaurant.name r));
      (u "rating", JOpt JFloat (Restaurant.rating r));
      (u "review_count", JOpt JInt (Restaurant.review_count r));
      (u "area", JOpt JStr (Restaurant.area r));
      (u "genres", JList (JStr <$> Restaurant.genres r));
      (u "url", JStr (Restaurant.url r));
      (u "lunch_price", JOpt JStr (Restaurant.lunch_price r));
      (u "dinner_price", JOpt JStr (Restaurant.dinner_price r)) ].

Definition text_result `{Imports} (payload : list Json) : list TextContent.t :=
  [TextContent.make (u "text") (json_dumps (JList payload))].

Definition _search_restaurants `{Imports} (arguments : gmap str PyVal)
  : result (list TextContent.t) :=
  let area := default VNone (arguments !! u "area") in
  let keyword := default VNone (arguments !! u "keyword") in
  let cuisine := default VNone (arguments !! u "cuisine") in
  let sort := default (VStr (u "ranking")) (arguments !! u "sort") in
  let limit := default (VInt 20) (arguments !! u "limit") in
  sort_type ← resolve_sort_type sort;
  let genre_code := if truthy cuisine then get_genre_code cuisine else None in
  let request := SearchRequest.make area keyword genre_code sort_type 1 in
  response ← search request;
  shown ← slice_limit (SearchResponse.restaurants response) limit;
  let restaurants := restaurant_dict <$> shown in
  Ok (text_result restaurants).


(** The dict built for one suggestion [s]. *)
Definition suggestion_dict (s : Suggestion.t) : Json :=
  JDict
    [ (u "name", JStr (Suggestion.name s));
      (u "datatype", JStr (Suggestion.datatype s));
      (u "id_in_datatype", JInt (Suggestion.id_in_datatype s));
      (u "lat", JOpt JFloat (Suggestion.lat s));
      (u "lng", JOpt JFloat (Suggestion.lng s)) ].

Definition _get_area_suggestions `{Imports} (arguments : gmap str PyVal)
  : result (list TextContent.t) :=
  let query := default (VStr (u "")) (arguments !! u "query") in
  suggestions ← get_area_suggestions_async query;
  let result := suggestion_dict <$> suggestions in
  Ok (text_result result).

Definition _get_keyword_suggestions `{Imports} (arguments : gmap str PyVal)
  : result (list TextContent.t) :=
  let query := default (VStr (u "")) (arguments !! u "query") in
  suggestions ← get_keyword_suggestions_async query;
  let result := suggestion_dict <$> suggestions in
  Ok (text_result result).


(** The bounds that [list_tools] declares for [limit] in the input schema
    of [search_restaurants], and the tokens it declares for [sort]. *)
Definition LIMIT_MINIMUM : Z := 1.
Definition LIMIT_MAXIMUM : Z := 60.
Definition SORT_ENUM : list str :=
  [u "ranking"; u "review-count"; u "new-open"; u "standard"].

End server.
Export server.

(** The request that [_search_restaurants] builds from its arguments once
    the sort type is known. *)
Definition built_request `{Imports} (arguments : gmap str PyVal)
  (sort_type : SortType) : SearchRequest.t :=
  let cuisine := default VNone (arguments !! u "cuisine") in
  SearchRequest.make
    (default VNone (arguments !! u "area"))
    (default VNone (arguments !! u "keyword"))
    (if truthy cuisine then get_genre_code cuisine else None)
    sort_type 1.

(** ** Vocabulary of the statements *)

(** Steps (1)-(2) on the tables of the source: [name] is a key with slug
    [slug], the full-name table first. *)
Definition in_tables (name slug : str) : Prop :=
  PREFECTURE_MAPPING !! name = Some slug ∨
  (PREFECTURE_MAPPING !! name = None ∧ CITY_MAPPING !! name = Some slug).

Definition has_whitespace (s : str) : Prop := Exists (λ c, isspace c = true) s.

Definition all_whitespace (s : str) : Prop := Forall (λ c, isspace c = true) s.

Definition no_whitespace (s : str) : Prop := Forall (λ c, isspace c = false) s.

(** ** Test doubles

    The collaborators as [tests/test_server.py] and [tests/test_suggest.py]
    stub them: a search that answers with two restaurants, a genre table
    that knows 寿司 and ラーメン, and suggestion clients that answer a
    blank query with no suggestion.  The serialiser is a compact one, on
    one line, in which a float prints as its bit pattern. *)
Module doubles.

Fixpoint join (sep : str) (parts : list str) : str :=
  match parts with
  | [] => []
  | part :: rest =>
    match rest with
    | [] => part
    | _ => part ++ sep ++ join sep rest
    end
  end.

Definition quoted (s : str) : str := [0x22%N] ++ s ++ [0x22%N].

Fixpoint dumps (j : Json) : str :=
  match j with
  | JNull => u "null"
  | JInt z => u (NilZero.string_of_int (Z.to_int z))
  | JFloat f => u (NilZero.string_of_uint (N.to_uint f))
  | JStr s => quoted s
  | JList l =>
    u "[" ++ join (u ", ")
      ((fix each l :=
          match l with
          | [] => []
          | x :: rest => dumps x :: each rest
          end) l) ++ u "]"
  | JDict items =>
    u "{" ++ join (u ", ")
      ((fix each items :=
          match items with
          | [] => []
          | (k, v) :: rest => (quoted k ++ u ": " ++ dumps v) :: each rest
          end) items) ++ u "}"
  end.

Definition sample_restaurants : list Restaurant.t :=
  [ Restaurant.make (u "テスト寿司") (Some 0x4012000000000000%N) (Some 123%Z)
      (Some (u "銀座")) [u "寿司"; u "和食"]
      (u "https://tabelog.com/tokyo/A1301/A130101/13000001/")
      (Some (u "¥5,000～¥5,999")) (Some (u "¥10,000～¥14,999"));
    Restaurant.make (u "テストラーメン") (Some 0x400E666666666666%N) (Some 456%Z)
      (Some (u "新宿")) [u "ラーメン"]
      (u "https://tabelog.com/tokyo/A1301/A130102/13000002/")
      (Some (u "¥1,000～¥1,999")) None ].

Definition sample_area_suggestions : list Suggestion.t :=
  [ Suggestion.make (u "東京都") (u "AddressMaster") 13
      (Some 0x4041D84189374BC7%N) (Some 0x406176226809D495%N) ].

Definition sample_keyword_suggestions : list Suggestion.t :=
  [ Suggestion.make (u "すき焼き") (u "Genre2") 107 None None;
    Suggestion.make (u "和田金") (u "Restaurant") 24000123 None None ].

Definition suggest (answer : list Suggestion.t) (query : PyVal)
  : result (list Suggestion.t) :=
  match query with
  | VStr q => if bool_decide (strip q = []) then Ok [] else Ok answer
  | _ => Raise AttributeError
  end.

Definition genre_code (cuisine : PyVal) : option str :=
  match cuisine with
  | VStr name =>
    if bool_decide (name = u "寿司") then Some (u "RC0201")
    else if bool_decide (name = u "ラーメン") then Some (u "RC0501")
    else None
  | _ => None
  end.

Definition imports : Imports := {|
  get_all_genres := [u "ラーメン"; u "寿司"];
  get_genre_code := genre_code;
  search := λ _, Ok (SearchResponse.make sample_restaurants);
  get_area_suggestions_async := suggest sample_area_suggestions;
  get_keyword_suggestions_async := suggest sample_keyword_suggestions;
  json_dumps := dumps;
|}.

End doubles.

(** ** More of [list_tools]

    The four tool names that [list_tools] declares, and the defaults that
    the input schema of [search_restaurants] declares for [sort] and for
    [limit]. *)
Module tool_schema.


Definition SORT_DEFAULT : str := u "ranking".
Definition LIMIT_DEFAULT : Z := 20.

End tool_schema.
Export tool_schema.

(** The code points of the CJK Unified Ideographs block. *)
Definition is_kanji (c : codepoint) : Prop := (0x4E00 ≤ c ≤ 0x9FFF)%N.

#[export] Instance is_kanji_dec c : Decision (is_kanji c).
Proof. unfold is_kanji. apply _. Defined.

(** ** [scripts/verify_js_rendering.py]: [analyze_results] *)

Module verify_js_rendering.

Module TestResult.
Record t := make {
  test_name : str;
  area : option str;
  keyword : option str;
  cuisine : option str;
  genre_code : option str;
  success : bool;
  restaurant_count : Z;
  error : option str;
  duration_seconds : float;
  timestamp : str;
}.
End TestResult.

(** A number of the statistics: an [int] or a [float]. *)
Inductive number :=
| Int (z : Z)
| Float (f : float).

(** The float arithmetic that [analyze_results] uses, on divisors other
    than zero: [a / b] on two ints, [x * n], [x / n], the sum of a
    non-empty sequence of floats, and [round(x, ndigits)]. *)
Class FloatOps := {
  int_truediv : Z → Z → float;
  float_mul_int : float → Z → float;
  float_div_int : float → Z → float;
  float_sum : list float → float;
  float_round : float → Z → float;
}.

(** What a call comes to: a value, or [ZeroDivisionError]. *)
Inductive outcome (A : Type) :=
| Returned (a : A)
| ZeroDivisionError.
Arguments Returned {A} a.
Arguments ZeroDivisionError {A}.

(** Truth value of a [str | None] attribute. *)
Definition given (o : option str) : bool :=
  match o with
  | Some (_ :: _) => true
  | _ => false
  end.

(** [sum(1 for r in rs if r.success)] *)
Definition count_successful (rs : list TestResult.t) : Z :=
  Z.of_nat (length (filter (λ r, Is_true (TestResult.success r)) rs)).

(** [x / n] for a number [x] and an int [n]. *)
Definition truediv `{FloatOps} (x : number) (n : Z) : outcome number :=
  if (n =? 0)%Z then ZeroDivisionError
  else Returned (Float match x with
                       | Int z => int_truediv z n
                       | Float f => float_div_int f n
                       end).

(** [sum(xs)] for floats [xs]: the int [0] when there is none. *)
Definition sum_floats `{FloatOps} (xs : list float) : number :=
  match xs with
  | [] => Int 0
  | _ => Float (float_sum xs)
  end.

(** [round(x, ndigits)]: an int is returned as it is. *)
Definition round `{FloatOps} (x : number) (ndigits : Z) : number :=
  match x with
  | Int z => Int z
  | Float f => Float (float_round f ndigits)
  end.

Module TypeCount.
Record t := make { total : Z; successful : Z }.
End TypeCount.

Definition type_count (rs : list TestResult.t) : TypeCount.t :=
  TypeCount.make (Z.of_nat (length rs)) (count_successful rs).

Module ByType.
Record t := make {
  area_only : TypeCount.t;
  cuisine_only : TypeCount.t;
  area_cuisine : TypeCount.t;
  area_keyword : TypeCount.t;
}.
End ByType.

Module Analysis.
Record t := make {
  total_tests : Z;
  successful : Z;
  failed : Z;
  success_rate : number;
  by_type : ByType.t;
  average_duration : number;
  total_restaurants_found : Z;
}.
End Analysis.

Definition analyze_results `{FloatOps} (results : list TestResult.t)
  : outcome Analysis.t :=
  let total := Z.of_nat (length results) in
  let successful := count_successful results in
  let failed := (total - successful)%Z in
  let success_rate :=
    if (0 <? total)%Z
    then Float (float_mul_int (int_truediv successful total) 100)
    else Int 0 in
  let area_only :=
    filter (λ r, Is_true (given (TestResult.area r)
                          && negb (given (TestResult.keyword r))
                          && negb (given (TestResult.cuisine r)))) results in
  let cuisine_only :=
    filter (λ r, Is_true (given (TestResult.cuisine r)
                          && negb (given (TestResult.area r))
                          && negb (given (TestResult.keyword r)))) results in
  let area_cuisine :=
    filter (λ r, Is_true (given (TestResult.area r)
                          && given (TestResult.cuisine r))) results in
  let area_keyword :=
    filter (λ r, Is_true (given (TestResult.area r)
                          && given (TestResult.keyword r))) results in
  match truediv (sum_floats (TestResult.duration_seconds <$> results)) total with
  | ZeroDivisionError => ZeroDivisionError
  | Returned average =>
    Returned
      (Analysis.make total successful failed (round success_rate 2)
         (ByType.make (type_count area_only) (type_count cuisine_only)
            (type_count area_cuisine) (type_count area_keyword))
         (round average 2)
         (foldr Z.add 0%Z (TestResult.restaurant_count <$> results)))
  end.

End verify_js_rendering.

(** Float arithmetic for the examples: every operation on the bit
    patterns is left uncomputed and answers the pattern of [0.0]. *)
Definition no_floats : verify_js_rendering.FloatOps := {|
  verify_js_rendering.int_truediv := λ _ _, 0%N;
  verify_js_rendering.float_mul_int := λ _ _, 0%N;
  verify_js_rendering.float_div_int := λ _ _, 0%N;
  verify_js_rendering.float_sum := λ _, 0%N;
  verify_js_rendering.float_round := λ _ _, 0%N;
|}.

(** Two results for the examples: a search by area that found twenty
    restaurants, and one by area, cuisine and keyword that found none. *)
Module script_doubles.
Import verify_js_rendering.

Definition sample_results : list TestResult.t :=
  [ TestResult.make (u "Tokyo only") (Some (u "東京")) None None None
      true 20 None 0x3FF8000000000000%N (u "2025-01-01T00:00:00");
    TestResult.make (u "Sapporo hamburg") (Some (u "札幌")) (Some (u "ランチ"))
      (Some (u "ハンバーグ")) None
      false 0 None 0x4000000000000000%N (u "2025-01-01T00:00:02") ].

Definition sample_analysis : Analysis.t :=
  Analysis.make 2 1 1 (Float 0%N)
    (ByType.make (TypeCount.make 1 1) (TypeCount.make 0 0)
       (TypeCount.make 1 0) (TypeCount.make 1 0))
    (Float 0%N) 20.

Definition keyword_only_results : list TestResult.t :=
  [ TestResult.make (u "Keyword") None (Some (u "和田金")) None None
      true 3 None 0x3FF0000000000000%N (u "2025-01-01T00:00:05") ].

End script_doubles.

(** * Facts *)

(** ** The string operations on examples *)

Example u_code_points :
  u "都" = [0x90FD%N] ∧ u "tokyo" = [0x74; 0x6F; 0x6B; 0x79; 0x6F]%N ∧
  u "¥～" = [0xA5; 0xFF5E]%N ∧ u "𠮷" = [0x20BB7%N].
Proof. vm_compute. repeat split. Qed.

Example slice_to_bounds :
  slice_to (u "東京都") (-1) = u "東京" ∧ slice_to (u "東京都") 0 = [] ∧
  slice_to (u "東京都") 2 = u "東京" ∧ slice_to (u "東京都") 60 = u "東京都" ∧
  slice_to (u "東京都") (-60) = [].
Proof. vm_compute. repeat split. Qed.

Example strip_and_lower :
  strip (u "  東京　") = u "東京" ∧ strip (u "   ") = [] ∧
  lower (u "Review-Count") = u "review-count" ∧ lower [0x212A%N] = u "k".
Proof. vm_compute. repeat split. Qed.

(** ** Dict displays *)

Lemma foldl_insert_lookup_Some {V} (items : list (str * V)) (m : gmap str V) k v :
  foldl (λ m kv, <[kv.1 := kv.2]> m) m items !! k = Some v →
  (k, v) ∈ items ∨ m !! k = Some v.
Proof.
  revert m. induction items as [|[k' v'] items IH]; intros m Hk; simpl in *.
  - by right.
  - destruct (IH _ Hk) as [Hin | Hm].
    + left. by right.
    + destruct (decide (k' = k)) as [->|Hne].
      * rewrite lookup_insert_eq in Hm. injection Hm as ->. left. by left.
      * rewrite lookup_insert_ne in Hm by done. by right.
Qed.

Lemma dict_literal_lookup_Some {V} (items : list (str * V)) k v :
  dict_literal items !! k = Some v → (k, v) ∈ items.
Proof.
  intros Hk. destruct (foldl_insert_lookup_Some items ∅ k v Hk) as [?|He]; [done|].
  by rewrite lookup_empty in He.
Qed.

(** A property checked on the items of a display holds of every entry of
    the dict. *)
Lemma dict_literal_Forall {V} (P : str → V → Prop) (items : list (str * V)) :
  Forall (λ kv, P kv.1 kv.2) items →
  ∀ k v, dict_literal items !! k = Some v → P k v.
Proof.
  intros Hall k v Hk. apply dict_literal_lookup_Some in Hk.
  rewrite Forall_forall in Hall. exact (Hall _ Hk).
Qed.

#[local] Arguments PREFECTURE_MAPPING : simpl never.
#[local] Arguments CITY_MAPPING : simpl never.

(** Proof by evaluation of a decidable statement about the tables. *)
Ltac by_evaluation := apply (bool_decide_unpack _); vm_compute; exact I.

(** ** The tables *)

(** No key is written twice in either display, so every item written in
    the source is an entry of the dict, and conversely. *)
Lemma PREFECTURE_MAPPING_items k v :
  PREFECTURE_MAPPING !! k = Some v ↔ (k, v) ∈ PREFECTURE_ITEMS.
Proof.
  split; [apply dict_literal_lookup_Some|].
  revert k v.
  assert (Forall (λ kv, PREFECTURE_MAPPING !! kv.1 = Some kv.2) PREFECTURE_ITEMS)
    as Hall by by_evaluation.
  intros k v Hin. rewrite Forall_forall in Hall. exact (Hall _ Hin).
Qed.

Lemma CITY_MAPPING_items k v :
  CITY_MAPPING !! k = Some v ↔ (k, v) ∈ CITY_ITEMS.
Proof.
  split; [apply dict_literal_lookup_Some|].
  revert k v.
  assert (Forall (λ kv, CITY_MAPPING !! kv.1 = Some kv.2) CITY_ITEMS)
    as Hall by by_evaluation.
  intros k v Hin. rewrite Forall_forall in Hall. exact (Hall _ Hin).
Qed.

(** C2. The area tables satisfy the CanonicalMapping invariant: every slug
    of [PREFECTURE_MAPPING] and of [CITY_MAPPING] is a lowercase ASCII
    string, no two distinct keys of [PREFECTURE_MAPPING] share a slug, and
    every slug of [CITY_MAPPING] is also a slug of [PREFECTURE_MAPPING]. *)
Theorem area_tables_canonical_mapping :
  (∀ k slug, PREFECTURE_MAPPING !! k = Some slug → is_lower_ascii_slug slug) ∧
  (∀ k slug, CITY_MAPPING !! k = Some slug → is_lower_ascii_slug slug) ∧
  (∀ k1 k2 slug,
     PREFECTURE_MAPPING !! k1 = Some slug →
     PREFECTURE_MAPPING !! k2 = Some slug → k1 = k2) ∧
  (∀ k slug, CITY_MAPPING !! k = Some slug →
     ∃ full, PREFECTURE_MAPPING !! full = Some slug).
Proof.
  split_and!.
  - apply (dict_literal_Forall (λ _ slug, is_lower_ascii_slug slug)).
    by_evaluation.
  - apply (dict_literal_Forall (λ _ slug, is_lower_ascii_slug slug)).
    by_evaluation.
  - intros k1 k2 slug H1%PREFECTURE_MAPPING_items H2%PREFECTURE_MAPPING_items.
    assert (Forall (λ a, Forall (λ b, a.2 = b.2 → a.1 = b.1) PREFECTURE_ITEMS)
              PREFECTURE_ITEMS) as Hall by by_evaluation.
    rewrite Forall_forall in Hall. specialize (Hall _ H1).
    rewrite Forall_forall in Hall. exact (Hall _ H2 eq_refl).
  - intros k slug Hk%CITY_MAPPING_items.
    assert (Forall (λ kv, kv.2 ∈ PREFECTURE_ITEMS.*2) CITY_ITEMS)
      as Hall by by_evaluation.
    rewrite Forall_forall in Hall. specialize (Hall _ Hk).
    apply list_elem_of_fmap in Hall as ([full slug'] & Heq & Hin).
    simpl in Heq. subst slug'. exists full. by apply PREFECTURE_MAPPING_items.
Qed.

Lemma area_tables_canonical_mapping_witness :
  is_lower_ascii_slug (u "tokyo") ∧
  u "大阪府" = u "大阪府" ∧
  ∃ full, PREFECTURE_MAPPING !! full = Some (u "kyoto").
Proof.
  destruct area_tables_canonical_mapping as (Hpref & Hcity & Hinj & Hsub).
  split_and!.
  - apply (Hcity (u "東京")). reflexivity.
  - apply (Hinj _ _ (u "osaka")); reflexivity.
  - apply (Hsub (u "京都")). reflexivity.
Defined.

(** ** Suffixes and slices *)

Lemma slice_to_app_suffix {A} (k sfx : list A) :
  sfx ≠ [] → slice_to (k ++ sfx) (- Z.of_nat (length sfx)) = k.
Proof.
  intros Hne. unfold slice_to.
  assert (0 < length sfx) by (destruct sfx; [done | simpl; lia]).
  replace (- Z.of_nat (length sfx) <? 0)%Z with true by (symmetry; apply Z.ltb_lt; lia).
  rewrite length_app.
  replace (Z.to_nat (Z.of_nat (length k + length sfx) + - Z.of_nat (length sfx)))
    with (length k) by lia.
  by rewrite take_app_length.
Qed.

Lemma endswith_true s sfx : endswith s sfx = true ↔ ∃ k, s = k ++ sfx.
Proof. unfold endswith. by rewrite bool_decide_eq_true. Qed.

Lemma endswith_app k sfx : endswith (k ++ sfx) sfx = true.
Proof. apply endswith_true. by exists k. Qed.

(** Two one-character suffixes: the string ends with the one exactly
    when they are the same character. *)
Lemma endswith_app_singleton k (c c' : codepoint) :
  endswith (k ++ [c]) [c'] = bool_decide (c = c').
Proof.
  unfold endswith. apply bool_decide_ext. split.
  - intros [k' Heq]. apply app_inj_tail in Heq. by destruct Heq.
  - intros ->. by exists k.
Qed.

(** Stripping a suffix as the specification words it is [endswith]
    followed by the slice [[: -len(suffix)]], for a non-empty suffix. *)
Lemma strip_suffix_python sfx name :
  sfx ≠ [] →
  NameCanonicalizer.strip_suffix sfx name =
  if endswith name sfx then Some (slice_to name (- Z.of_nat (length sfx))) else None.
Proof.
  intros Hne. unfold NameCanonicalizer.strip_suffix, endswith.
  destruct (decide (reverse sfx `prefix_of` reverse name)) as [Hp|Hp].
  - apply suffix_prefix_reverse in Hp.
    rewrite bool_decide_eq_true_2 by done. destruct Hp as [k ->]. simpl.
    rewrite reverse_app, drop_app_length', reverse_involutive
      by (symmetry; apply length_reverse).
    by rewrite slice_to_app_suffix.
  - rewrite bool_decide_eq_false_2; [done|].
    intros Hs. apply Hp. by apply suffix_prefix_reverse.
Qed.

(** ** [get_area_slug] against the algorithm of the specification *)

Lemma SUFFIXES_nonempty : Forall (λ sfx : str, sfx ≠ []) SUFFIXES.
Proof. by_evaluation. Qed.

(** The loop returns the first hit of "strip, then retry steps (1)-(2)". *)
Lemma suffix_loop_first_hit name sfxs :
  Forall (λ sfx : str, sfx ≠ []) sfxs →
  suffix_loop name sfxs =
  foldr (λ sfx later, NameCanonicalizer.retry_stripped name sfx ∪ later) None sfxs.
Proof.
  induction 1 as [|sfx sfxs Hne _ IH]; [reflexivity|].
  cbn [suffix_loop foldr]. unfold NameCanonicalizer.retry_stripped at 1.
  rewrite (strip_suffix_python sfx name Hne), IH.
  generalize (foldr (λ sfx later, NameCanonicalizer.retry_stripped name sfx ∪ later)
                None sfxs).
  intros later. destruct (endswith name sfx); [|by destruct later].
  cbn [mbind option_bind]. unfold NameCanonicalizer.exact_match.
  destruct (PREFECTURE_MAPPING !! _), (CITY_MAPPING !! _), later; reflexivity.
Qed.

(** C1. For every input string [get_area_slug] follows the algorithm: exact
    lookup in [PREFECTURE_MAPPING], then in [CITY_MAPPING], then, for each
    suffix of 都, 府, 県, 市 in this order that the input ends with, the
    same two lookups on the input without the suffix; the first hit is
    returned, and [None] when there is none.  In particular every full name
    of [PREFECTURE_MAPPING] resolves to its slug. *)
Theorem get_area_slug_follows_algorithm :
  (∀ name, get_area_slug name = NameCanonicalizer.resolve name) ∧
  (∀ fullName slug,
     PREFECTURE_MAPPING !! fullName = Some slug →
     get_area_slug fullName = Some slug).
Proof.
  split.
  - intros name. unfold get_area_slug, NameCanonicalizer.resolve.
    rewrite <- (suffix_loop_first_hit name SUFFIXES SUFFIXES_nonempty).
    unfold NameCanonicalizer.exact_match.
    generalize (suffix_loop name SUFFIXES). intros later.
    destruct (PREFECTURE_MAPPING !! name), (CITY_MAPPING !! name), later;
      reflexivity.
  - intros fullName slug Hfull. unfold get_area_slug. rewrite Hfull. reflexivity.
Qed.

Lemma get_area_slug_follows_algorithm_witness :
  get_area_slug (u "東京市") = NameCanonicalizer.resolve (u "東京市") ∧
  get_area_slug (u "神奈川県") = Some (u "kanagawa").
Proof.
  destruct get_area_slug_follows_algorithm as [Hrefines Hfull].
  split; [apply Hrefines | apply Hfull; reflexivity].
Defined.

(** Every item written in the display of [PREFECTURE_MAPPING] resolves to
    its slug. *)
Lemma get_area_slug_prefecture_items fullName slug :
  (fullName, slug) ∈ PREFECTURE_ITEMS → get_area_slug fullName = Some slug.
Proof.
  intros Hin%PREFECTURE_MAPPING_items. unfold get_area_slug.
  rewrite Hin. reflexivity.
Qed.

Example get_area_slug_examples :
  get_area_slug (u "東京都") = Some (u "tokyo") ∧
  get_area_slug (u "東京") = Some (u "tokyo") ∧
  get_area_slug (u "福岡市") = Some (u "fukuoka") ∧
  get_area_slug (u "北海") = None ∧
  get_area_slug (u "三重") = None.
Proof. vm_compute. repeat split. Qed.

(** ** How the suffix loop hits and misses *)

(** The one key that both tables hold has the same slug in both. *)
Lemma tables_agree name s1 s2 :
  PREFECTURE_MAPPING !! name = Some s1 → CITY_MAPPING !! name = Some s2 → s1 = s2.
Proof.
  intros H1%PREFECTURE_MAPPING_items H2%CITY_MAPPING_items.
  assert (Forall (λ a, Forall (λ b, a.1 = b.1 → a.2 = b.2) CITY_ITEMS)
            PREFECTURE_ITEMS) as Hall by by_evaluation.
  rewrite Forall_forall in Hall. specialize (Hall _ H1).
  rewrite Forall_forall in Hall. exact (Hall _ H2 eq_refl).
Qed.

Lemma in_tables_of_key name slug :
  PREFECTURE_MAPPING !! name = Some slug ∨ CITY_MAPPING !! name = Some slug →
  in_tables name slug.
Proof.
  intros [Hp|Hc]; [left; exact Hp|].
  destruct (PREFECTURE_MAPPING !! name) as [slug'|] eqn:Hp.
  - left. rewrite Hp. f_equal. exact (tables_agree name slug' slug Hp Hc).
  - right. split; [exact Hp | exact Hc].
Qed.

(** A hit of the loop strips exactly one suffix of the list. *)
Lemma suffix_loop_Some name sfxs slug :
  suffix_loop name sfxs = Some slug →
  ∃ base sfx, sfx ∈ sfxs ∧ endswith name sfx = true ∧
    base = slice_to name (- Z.of_nat (length sfx)) ∧ in_tables base slug.
Proof.
  induction sfxs as [|sfx sfxs IH]; [discriminate|].
  cbn [suffix_loop]. intros Hloop.
  assert (suffix_loop name sfxs = Some slug →
          ∃ base sfx', sfx' ∈ sfx :: sfxs ∧ endswith name sfx' = true ∧
            base = slice_to name (- Z.of_nat (length sfx')) ∧ in_tables base slug)
    as Hrest.
  { intros (base & sfx' & Hin & Hrest)%IH. exists base, sfx'.
    split; [right; exact Hin | exact Hrest]. }
  destruct (endswith name sfx) eqn:Hends; [|exact (Hrest Hloop)].
  destruct (PREFECTURE_MAPPING !! _) as [s|] eqn:Hp.
  { injection Hloop as ->. eexists _, sfx.
    split_and!; [left | exact Hends | reflexivity | left; exact Hp]. }
  destruct (CITY_MAPPING !! _) as [s|] eqn:Hc; [|exact (Hrest Hloop)].
  injection Hloop as ->. eexists _, sfx.
  split_and!; [left | exact Hends | reflexivity | right; split; [exact Hp | exact Hc]].
Qed.

(** One-character suffixes that are pairwise distinct: the loop reaches
    the one the input ends with and tries no other. *)
Lemma suffix_loop_hit name base (c : codepoint) sfxs slug :
  Forall (λ sfx : str, length sfx = 1) sfxs →
  [c] ∈ sfxs → name = base ++ [c] → in_tables base slug →
  suffix_loop name sfxs = Some slug.
Proof.
  intros Hlen Hin -> Hbase. induction Hlen as [|sfx sfxs Hone _ IH].
  - by apply elem_of_nil in Hin.
  - destruct sfx as [|c' [|? ?]]; try discriminate Hone.
    cbn [suffix_loop]. rewrite endswith_app_singleton.
    destruct (decide (c = c')) as [<-|Hne].
    + rewrite bool_decide_eq_true_2 by done.
      rewrite slice_to_app_suffix by done.
      destruct Hbase as [-> | [-> ->]]; reflexivity.
    + rewrite bool_decide_eq_false_2 by done. apply IH.
      apply elem_of_cons in Hin as [Heq|Hin]; [congruence|done].
Qed.

Lemma SUFFIXES_one_character : Forall (λ sfx : str, length sfx = 1) SUFFIXES.
Proof. by_evaluation. Qed.

(** A resolved input is a key, or a key followed by one suffix. *)
Lemma suffix_stripping_core name slug :
  get_area_slug name = Some slug →
  in_tables name slug ∨
  ∃ base sfx, sfx ∈ SUFFIXES ∧ name = base ++ sfx ∧ in_tables base slug.
Proof.
  unfold get_area_slug.
  destruct (PREFECTURE_MAPPING !! name) as [s|] eqn:Hp.
  { intros [= ->]. left. left. exact Hp. }
  destruct (CITY_MAPPING !! name) as [s|] eqn:Hc.
  { intros [= ->]. left. right. split; [exact Hp | exact Hc]. }
  intros (base & sfx & Hin & Hends & -> & Hbase)%suffix_loop_Some.
  right. apply endswith_true in Hends as [k ->].
  pose proof SUFFIXES_nonempty as Hne.
  rewrite Forall_forall in Hne. specialize (Hne _ Hin).
  rewrite slice_to_app_suffix in Hbase by exact Hne.
  exists k, sfx. split_and!; [exact Hin | reflexivity | exact Hbase].
Qed.

(** An input outside both tables resolves through the one suffix it ends
    with, when the rest is a key. *)
Lemma suffix_stripping_reveals name base sfx slug :
  PREFECTURE_MAPPING !! name = None → CITY_MAPPING !! name = None →
  sfx ∈ SUFFIXES → name = base ++ sfx → in_tables base slug →
  get_area_slug name = Some slug.
Proof.
  intros Hp Hc Hsfx Hname Hbase.
  unfold get_area_slug. rewrite Hp, Hc.
  pose proof SUFFIXES_one_character as Hone.
  rewrite Forall_forall in Hone. specialize (Hone _ Hsfx).
  destruct sfx as [|c [|? ?]]; try discriminate Hone.
  exact (suffix_loop_hit name base c SUFFIXES slug SUFFIXES_one_character
           Hsfx Hname Hbase).
Qed.

(** C4. Suffix stripping is single-pass.  An input that matches neither
    table, ends with one of 都, 府, 県, 市, and is a key of either table once
    that one suffix is removed, resolves to the slug of that key: 東京都府
    resolves to tokyo through the full name 東京都.  A resolved input is a
    key or a key followed by one suffix: no second suffix is removed, and
    東京府都 does not resolve. *)
Theorem suffix_stripping_single_pass :
  (∀ name base sfx slug,
     PREFECTURE_MAPPING !! name = None → CITY_MAPPING !! name = None →
     sfx ∈ SUFFIXES → name = base ++ sfx →
     PREFECTURE_MAPPING !! base = Some slug ∨ CITY_MAPPING !! base = Some slug →
     get_area_slug name = Some slug) ∧
  get_area_slug (u "東京都府") = Some (u "tokyo") ∧
  (∀ name slug,
     get_area_slug name = Some slug →
     in_tables name slug ∨
     ∃ base sfx, sfx ∈ SUFFIXES ∧ name = base ++ sfx ∧ in_tables base slug) ∧
  get_area_slug (u "東京府都") = None.
Proof.
  split_and!.
  - intros name base sfx slug Hp Hc Hsfx Hname Hbase%in_tables_of_key.
    exact (suffix_stripping_reveals name base sfx slug Hp Hc Hsfx Hname Hbase).
  - vm_compute. reflexivity.
  - exact suffix_stripping_core.
  - vm_compute. reflexivity.
Qed.

Lemma suffix_stripping_single_pass_witness :
  get_area_slug (u "大阪府" ++ u "県") = Some (u "osaka") ∧
  (in_tables (u "福岡市") (u "fukuoka") ∨
   ∃ base sfx, sfx ∈ SUFFIXES ∧ u "福岡市" = base ++ sfx ∧
     in_tables base (u "fukuoka")).
Proof.
  destruct suffix_stripping_single_pass as (Hreveal & _ & Honce & _).
  split.
  - apply (Hreveal _ (u "大阪府") (u "県")).
    + reflexivity.
    + reflexivity.
    + apply (bool_decide_unpack _). vm_compute. exact I.
    + reflexivity.
    + left. reflexivity.
  - apply Honce. reflexivity.
Defined.

(** ** Whitespace *)

(** No key of either table contains a whitespace character, and no
    suffix does. *)
Lemma table_keys_no_whitespace name slug :
  PREFECTURE_MAPPING !! name = Some slug ∨ CITY_MAPPING !! name = Some slug →
  no_whitespace name.
Proof.
  intros [Hk|Hk]; revert name slug Hk.
  - apply (dict_literal_Forall (λ name _, no_whitespace name)). by_evaluation.
  - apply (dict_literal_Forall (λ name _, no_whitespace name)). by_evaluation.
Qed.

Lemma SUFFIXES_no_whitespace : Forall no_whitespace SUFFIXES.
Proof. by_evaluation. Qed.

Lemma whitespace_excluded s : has_whitespace s → no_whitespace s → False.
Proof.
  unfold has_whitespace, no_whitespace. rewrite Exists_exists, Forall_forall.
  intros (c & Hin & Hsp) Hno. specialize (Hno c Hin). congruence.
Qed.

Lemma in_tables_no_whitespace name slug : in_tables name slug → no_whitespace name.
Proof.
  intros [Hp | [_ Hc]]; apply (table_keys_no_whitespace name slug);
    [left; exact Hp | right; exact Hc].
Qed.

(** A string that contains whitespace anywhere does not resolve. *)
Lemma get_area_slug_whitespace name :
  has_whitespace name → get_area_slug name = None.
Proof.
  intros Hsp. destruct (get_area_slug name) as [slug|] eqn:Hres; [|reflexivity].
  exfalso. destruct suffix_stripping_core with (name := name) (slug := slug)
    as [Hin | (base & sfx & Hsfx & -> & Hin)]; [exact Hres | |].
  - exact (whitespace_excluded _ Hsp (in_tables_no_whitespace _ _ Hin)).
  - apply Exists_app in Hsp as [Hsp|Hsp].
    + exact (whitespace_excluded _ Hsp (in_tables_no_whitespace _ _ Hin)).
    + pose proof SUFFIXES_no_whitespace as Hno.
      rewrite Forall_forall in Hno.
      exact (whitespace_excluded _ Hsp (Hno _ Hsfx)).
Qed.

(** C3. [get_area_slug] neither trims nor normalises its input: the empty
    string and [unknown-token] do not resolve, no string outside the reach
    of the exact and suffix-strip rules resolves, and a name that resolves
    no longer does once whitespace is added in front of it, behind it, or
    both. *)
Theorem get_area_slug_no_trimming :
  get_area_slug (u "") = None ∧
  get_area_slug (u "unknown-token") = None ∧
  (∀ name,
     PREFECTURE_MAPPING !! name = None → CITY_MAPPING !! name = None →
     (∀ base sfx, sfx ∈ SUFFIXES → name = base ++ sfx →
        PREFECTURE_MAPPING !! base = None ∧ CITY_MAPPING !! base = None) →
     get_area_slug name = None) ∧
  (∀ name slug leading trailing,
     get_area_slug name = Some slug →
     all_whitespace leading → all_whitespace trailing →
     leading ++ trailing ≠ [] →
     get_area_slug (leading ++ name ++ trailing) = None).
Proof.
  split_and!.
  - vm_compute. reflexivity.
  - vm_compute. reflexivity.
  - intros name Hp Hc Hstrip.
    destruct (get_area_slug name) as [slug|] eqn:Hres; [|reflexivity].
    exfalso.
    destruct (suffix_stripping_core name slug Hres)
      as [[Hin | [_ Hin]] | (base & sfx & Hsfx & Hname & Hin)]; [congruence.. |].
    destruct (Hstrip base sfx Hsfx Hname) as [Hbp Hbc].
    destruct Hin as [Hin | [_ Hin]]; congruence.
  - intros name slug leading trailing _ Hlead Htrail Hadded.
    apply get_area_slug_whitespace. unfold has_whitespace.
    rewrite !Exists_app.
    destruct leading as [|c leading].
    + destruct trailing as [|c trailing]; [done|].
      right. right. left. exact (Forall_inv Htrail).
    + left. left. exact (Forall_inv Hlead).
Qed.

Lemma get_area_slug_no_trimming_witness :
  get_area_slug (u "東京-都") = None ∧
  get_area_slug (u " " ++ u "東京都" ++ u " ") = None ∧
  get_area_slug (u "　" ++ u "大阪" ++ u "") = None.
Proof.
  destruct get_area_slug_no_trimming as (_ & _ & Hmiss & Hspace).
  split_and!.
  - apply Hmiss.
    + reflexivity.
    + reflexivity.
    + intros base sfx Hsfx Hname.
      assert (Forall (λ sfx, endswith (u "東京-都") sfx = true →
                PREFECTURE_MAPPING !! slice_to (u "東京-都") (- Z.of_nat (length sfx)) = None ∧
                CITY_MAPPING !! slice_to (u "東京-都") (- Z.of_nat (length sfx)) = None)
              SUFFIXES) as Hall
        by (apply (bool_decide_unpack _); vm_compute; exact I).
      rewrite Forall_forall in Hall. specialize (Hall sfx Hsfx).
      pose proof SUFFIXES_nonempty as Hne.
      rewrite Forall_forall in Hne. specialize (Hne sfx Hsfx).
      rewrite Hname in Hall at 1 2 3.
      rewrite endswith_app, slice_to_app_suffix in Hall by exact Hne.
      exact (Hall eq_refl).
  - apply (Hspace (u "東京都") (u "tokyo")).
    + reflexivity.
    + apply (bool_decide_unpack _). vm_compute. exact I.
    + apply (bool_decide_unpack _). vm_compute. exact I.
    + discriminate.
  - apply (Hspace (u "大阪") (u "osaka")).
    + reflexivity.
    + apply (bool_decide_unpack _). vm_compute. exact I.
    + apply (bool_decide_unpack _). vm_compute. exact I.
    + discriminate.
Defined.

(** ** Sort tokens *)

Lemma lower_cp_idempotent c : lower_cp (lower_cp c) = lower_cp c.
Proof.
  unfold lower_cp.
  destruct (N.leb_spec 0x41 c), (N.leb_spec c 0x5A), (N.eqb_spec c 0x212A);
    cbn [andb];
  repeat (match goal with
          | |- context [N.leb ?a ?b] => destruct (N.leb_spec a b)
          | |- context [N.eqb ?a ?b] => destruct (N.eqb_spec a b)
          end; cbn [andb]); lia.
Qed.

Lemma lower_idempotent s : lower (lower s) = lower s.
Proof.
  unfold lower. rewrite <- list_fmap_compose.
  apply list_fmap_ext. intros _ c _. apply lower_cp_idempotent.
Qed.

(** The keys of [sort_map] are the tokens of the declared enumeration. *)
Lemma sort_map_keys key t : sort_map !! key = Some t → key ∈ SORT_ENUM.
Proof.
  revert key t. apply (dict_literal_Forall (λ key _, key ∈ SORT_ENUM)).
  by_evaluation.
Qed.

Lemma sort_map_miss key : key ∉ SORT_ENUM → sort_map !! key = None.
Proof.
  intros Hout. destruct (sort_map !! key) as [t|] eqn:Hkey; [|reflexivity].
  destruct (Hout (sort_map_keys key t Hkey)).
Qed.

Lemma resolve_sort_type_str s :
  resolve_sort_type (VStr s) = Ok (default RANKING (sort_map !! lower s)).
Proof. reflexivity. Qed.

(** C10. Sort-token handling is case-insensitive and total.  For every
    string [s] given as [sort], the sort type computed for [s] is the one
    computed for [s.lower()], the step returns a sort type and does not
    raise, a token outside the recognised set after lowercasing gives
    [SortType.RANKING], and the whole handler answers [s] as it answers
    [s.lower()]. *)
Theorem sort_token_case_insensitive_total `{Imports} (s : str) :
  resolve_sort_type (VStr s) = resolve_sort_type (VStr (lower s)) ∧
  (∃ sort_type, resolve_sort_type (VStr s) = Ok sort_type) ∧
  (lower s ∉ SORT_ENUM → resolve_sort_type (VStr s) = Ok RANKING) ∧
  (∀ arguments,
     _search_restaurants (<[u "sort" := VStr s]> arguments) =
     _search_restaurants (<[u "sort" := VStr (lower s)]> arguments)).
Proof.
  assert (resolve_sort_type (VStr s) = resolve_sort_type (VStr (lower s))) as Hsame.
  { rewrite !resolve_sort_type_str. by rewrite lower_idempotent. }
  split_and!.
  - exact Hsame.
  - rewrite resolve_sort_type_str. by eexists.
  - intros Hout. rewrite resolve_sort_type_str.
    by rewrite (sort_map_miss _ Hout).
  - intros arguments. unfold _search_restaurants.
    rewrite !lookup_insert_eq.
    rewrite !(lookup_insert_ne _ (u "sort")) by (vm_compute; discriminate).
    cbn [from_option id]. by rewrite Hsame.
Qed.

Lemma sort_token_case_insensitive_total_witness :
  resolve_sort_type (VStr (u "Review-Count")) = Ok REVIEW_COUNT ∧
  resolve_sort_type (VStr (u "by-price")) = Ok RANKING.
Proof.
  destruct (@sort_token_case_insensitive_total doubles.imports (u "Review-Count"))
    as (Hsame & _).
  destruct (@sort_token_case_insensitive_total doubles.imports (u "by-price"))
    as (_ & _ & Hmiss & _).
  split.
  - rewrite Hsame. vm_compute. reflexivity.
  - apply Hmiss. apply (bool_decide_unpack _). vm_compute. exact I.
Defined.

(** ** The search handler, step by step *)

Lemma _search_restaurants_run `{Imports} arguments :
  _search_restaurants arguments =
  (sort_type ← resolve_sort_type (default (VStr (u "ranking")) (arguments !! u "sort"));
   response ← search (built_request arguments sort_type);
   shown ← slice_limit (SearchResponse.restaurants response)
             (default (VInt 20) (arguments !! u "limit"));
   Ok (text_result (restaurant_dict <$> shown))).
Proof. reflexivity. Qed.

(** With a sort argument that resolves and a search that answers, the
    handler returns the answer sliced at [limit], whatever integer
    [limit] is. *)
Lemma _search_restaurants_sliced `{Imports} arguments sort_type response (N : Z) :
  arguments !! u "limit" = Some (VInt N) →
  resolve_sort_type (default (VStr (u "ranking")) (arguments !! u "sort")) = Ok sort_type →
  search (built_request arguments sort_type) = Ok response →
  _search_restaurants arguments =
  Ok (text_result (restaurant_dict <$> slice_to (SearchResponse.restaurants response) N)).
Proof.
  intros Hlimit Hsort Hsearch.
  rewrite _search_restaurants_run, Hsort, Hlimit. cbn [mbind result_bind].
  rewrite Hsearch. reflexivity.
Qed.

Lemma slice_to_nonneg {A} (l : list A) (N : Z) :
  (0 ≤ N)%Z → slice_to l N = take (Nat.min (length l) (Z.to_nat N)) l.
Proof.
  intros HN. unfold slice_to.
  replace (N <? 0)%Z with false by (symmetry; apply Z.ltb_ge; lia).
  destruct (Nat.le_ge_cases (length l) (Z.to_nat N)) as [Hle|Hge].
  - rewrite Nat.min_l by exact Hle. by rewrite !take_ge by lia.
  - by rewrite Nat.min_r by exact Hge.
Qed.

Lemma not_invalid_argument_Ok {A} (a : A) : ¬ invalid_argument (Ok a).
Proof. intros [msg Hraise]. discriminate Hraise. Qed.

(** C9. Truncation is take-first-N: when the search answers with a list
    of length L and [limit] is a valid N, the handler returns exactly
    min(L, N) records, which are the first min(L, N) restaurants of the
    answer in their order. *)
Theorem search_truncation_take_first `{Imports}
  arguments sort_type response (N : Z) :
  arguments !! u "limit" = Some (VInt N) →
  (LIMIT_MINIMUM ≤ N ≤ LIMIT_MAXIMUM)%Z →
  resolve_sort_type (default (VStr (u "ranking")) (arguments !! u "sort")) = Ok sort_type →
  search (built_request arguments sort_type) = Ok response →
  ∃ records,
    _search_restaurants arguments = Ok (text_result records) ∧
    length records =
      Nat.min (length (SearchResponse.restaurants response)) (Z.to_nat N) ∧
    records =
      restaurant_dict <$>
        take (Nat.min (length (SearchResponse.restaurants response)) (Z.to_nat N))
          (SearchResponse.restaurants response).
Proof.
  intros Hlimit [Hmin _] Hsort Hsearch. unfold LIMIT_MINIMUM in Hmin.
  eexists. split_and!.
  - rewrite (_search_restaurants_sliced _ _ _ _ Hlimit Hsort Hsearch).
    rewrite slice_to_nonneg by lia. reflexivity.
  - rewrite length_fmap, length_take. lia.
  - reflexivity.
Qed.

Lemma search_truncation_take_first_witness :
  ∃ records,
    @_search_restaurants doubles.imports {[ u "limit" := VInt 1 ]}
      = Ok (@text_result doubles.imports records) ∧
    length records = 1 ∧
    records = restaurant_dict <$> take 1 doubles.sample_restaurants.
Proof.
  apply (@search_truncation_take_first doubles.imports
           {[ u "limit" := VInt 1 ]} RANKING
           (SearchResponse.make doubles.sample_restaurants) 1).
  - reflexivity.
  - unfold LIMIT_MINIMUM, LIMIT_MAXIMUM. lia.
  - reflexivity.
  - reflexivity.
Defined.

(** ** What the handlers do with arguments the boundary should refuse *)

(** C5, on the code.  A [limit] outside the declared bounds 1..60 is not
    refused: when the search answers, the handler returns the answer sliced
    at that [limit], so [limit=0] returns no record and [limit=100] returns
    up to a hundred. *)
Theorem search_limit_out_of_bounds_accepted `{Imports}
  arguments sort_type response (N : Z) :
  arguments !! u "limit" = Some (VInt N) →
  ¬ (LIMIT_MINIMUM ≤ N ≤ LIMIT_MAXIMUM)%Z →
  resolve_sort_type (default (VStr (u "ranking")) (arguments !! u "sort")) = Ok sort_type →
  search (built_request arguments sort_type) = Ok response →
  _search_restaurants arguments =
    Ok (text_result (restaurant_dict <$> slice_to (SearchResponse.restaurants response) N)) ∧
  ¬ invalid_argument (_search_restaurants arguments).
Proof.
  intros Hlimit _ Hsort Hsearch.
  rewrite (_search_restaurants_sliced _ _ _ _ Hlimit Hsort Hsearch).
  split; [reflexivity | apply not_invalid_argument_Ok].
Qed.

Lemma search_limit_out_of_bounds_accepted_witness :
  (@_search_restaurants doubles.imports {[ u "limit" := VInt 0 ]}
     = Ok [TextContent.make (u "text") (u "[]")] ∧
   ¬ invalid_argument (@_search_restaurants doubles.imports {[ u "limit" := VInt 0 ]})) ∧
  (@_search_restaurants doubles.imports {[ u "limit" := VInt 100 ]}
     = Ok (@text_result doubles.imports (restaurant_dict <$> doubles.sample_restaurants)) ∧
   ¬ invalid_argument (@_search_restaurants doubles.imports {[ u "limit" := VInt 100 ]})).
Proof.
  split.
  - apply (@search_limit_out_of_bounds_accepted doubles.imports
             {[ u "limit" := VInt 0 ]} RANKING
             (SearchResponse.make doubles.sample_restaurants) 0).
    + reflexivity.
    + unfold LIMIT_MINIMUM, LIMIT_MAXIMUM. lia.
    + reflexivity.
    + reflexivity.
  - apply (@search_limit_out_of_bounds_accepted doubles.imports
             {[ u "limit" := VInt 100 ]} RANKING
             (SearchResponse.make doubles.sample_restaurants) 100).
    + reflexivity.
    + unfold LIMIT_MINIMUM, LIMIT_MAXIMUM. lia.
    + reflexivity.
    + reflexivity.
Defined.

(** C6, on the code.  A [sort] string outside the recognised tokens is not
    refused: the handler answers it exactly as it answers [sort="ranking"]. *)
Theorem search_unrecognized_sort_accepted `{Imports} arguments (s : str) :
  lower s ∉ SORT_ENUM →
  _search_restaurants (<[u "sort" := VStr s]> arguments) =
  _search_restaurants (<[u "sort" := VStr (u "ranking")]> arguments).
Proof.
  intros Hout. unfold _search_restaurants.
  rewrite !lookup_insert_eq.
  rewrite !(lookup_insert_ne _ (u "sort")) by (vm_compute; discriminate).
  cbn [from_option id].
  rewrite (resolve_sort_type_str s), (sort_map_miss _ Hout).
  reflexivity.
Qed.

Lemma search_unrecognized_sort_accepted_witness :
  @_search_restaurants doubles.imports {[ u "sort" := VStr (u "invalid-sort-type") ]}
  = Ok (@text_result doubles.imports (restaurant_dict <$> doubles.sample_restaurants)).
Proof.
  change ({[ u "sort" := VStr (u "invalid-sort-type") ]} : gmap str PyVal)
    with (<[u "sort" := VStr (u "invalid-sort-type")]> (∅ : gmap str PyVal)).
  rewrite (@search_unrecognized_sort_accepted doubles.imports ∅ (u "invalid-sort-type")).
  - reflexivity.
  - apply (bool_decide_unpack _). vm_compute. exact I.
Defined.

(** C7, on the code.  A non-empty [cuisine] without a genre code is not
    refused: the handler answers as if no [cuisine] had been given. *)
Theorem search_unmapped_cuisine_dropped `{Imports} arguments (cuisine : PyVal) :
  truthy cuisine = true →
  get_genre_code cuisine = None →
  _search_restaurants (<[u "cuisine" := cuisine]> arguments) =
  _search_restaurants (delete (u "cuisine") arguments).
Proof.
  intros Htruthy Hcode. unfold _search_restaurants.
  rewrite lookup_insert_eq, lookup_delete_eq.
  rewrite !(lookup_insert_ne _ (u "cuisine")) by (vm_compute; discriminate).
  rewrite !(lookup_delete_ne _ (u "cuisine")) by (vm_compute; discriminate).
  cbn [from_option id truthy]. rewrite Htruthy, Hcode. reflexivity.
Qed.

Lemma search_unmapped_cuisine_dropped_witness :
  @_search_restaurants doubles.imports {[ u "cuisine" := VStr (u "存在しない料理") ]}
  = Ok (@text_result doubles.imports (restaurant_dict <$> doubles.sample_restaurants)).
Proof.
  change ({[ u "cuisine" := VStr (u "存在しない料理") ]} : gmap str PyVal)
    with (<[u "cuisine" := VStr (u "存在しない料理")]> (∅ : gmap str PyVal)).
  rewrite (@search_unmapped_cuisine_dropped doubles.imports ∅ (VStr (u "存在しない料理"))).
  - reflexivity.
  - reflexivity.
  - reflexivity.
Defined.

(** C8, on the code.  A query that is empty once trimmed, or missing, is
    not refused by either suggestion handler: the handler hands the query
    to its client and returns what the client answers. *)
Theorem suggestions_blank_query_accepted `{Imports}
  arguments (q : str) (areas keywords : list Suggestion.t) :
  default (VStr (u "")) (arguments !! u "query") = VStr q →
  strip q = [] →
  get_area_suggestions_async (VStr q) = Ok areas →
  get_keyword_suggestions_async (VStr q) = Ok keywords →
  _get_area_suggestions arguments = Ok (text_result (suggestion_dict <$> areas)) ∧
  _get_keyword_suggestions arguments = Ok (text_result (suggestion_dict <$> keywords)) ∧
  ¬ invalid_argument (_get_area_suggestions arguments) ∧
  ¬ invalid_argument (_get_keyword_suggestions arguments).
Proof.
  intros Hquery _ Hareas Hkeywords.
  unfold _get_area_suggestions, _get_keyword_suggestions.
  rewrite Hquery, Hareas, Hkeywords. cbn [mbind result_bind].
  split_and!; [reflexivity | reflexivity | apply not_invalid_argument_Ok..].
Qed.

Lemma suggestions_blank_query_accepted_witness :
  (@_get_area_suggestions doubles.imports {[ u "query" := VStr (u "   ") ]}
     = Ok [TextContent.make (u "text") (u "[]")] ∧
   @_get_keyword_suggestions doubles.imports {[ u "query" := VStr (u "   ") ]}
     = Ok [TextContent.make (u "text") (u "[]")]) ∧
  (@_get_area_suggestions doubles.imports ∅
     = Ok [TextContent.make (u "text") (u "[]")] ∧
   @_get_keyword_suggestions doubles.imports ∅
     = Ok [TextContent.make (u "text") (u "[]")]).
Proof.
  split.
  - destruct (@suggestions_blank_query_accepted doubles.imports
                {[ u "query" := VStr (u "   ") ]} (u "   ") [] [])
      as (Harea & Hkeyword & _); try reflexivity.
    split; [exact Harea | exact Hkeyword].
  - destruct (@suggestions_blank_query_accepted doubles.imports ∅ (u "") [] [])
      as (Harea & Hkeyword & _); try reflexivity.
    split; [exact Harea | exact Hkeyword].
Defined.

(** * Further properties of the code *)

(** ** [get_area_slug]: what resolves, and to what *)

Lemma table_key_in_items key slug :
  PREFECTURE_MAPPING !! key = Some slug ∨ CITY_MAPPING !! key = Some slug →
  (key, slug) ∈ PREFECTURE_ITEMS ++ CITY_ITEMS.
Proof.
  rewrite elem_of_app.
  intros [Hk%PREFECTURE_MAPPING_items | Hk%CITY_MAPPING_items]; [left|right]; exact Hk.
Qed.

Lemma in_tables_key name slug :
  in_tables name slug →
  PREFECTURE_MAPPING !! name = Some slug ∨ CITY_MAPPING !! name = Some slug.
Proof. intros [Hp | [_ Hc]]; [left; exact Hp | right; exact Hc]. Qed.

(** A resolved name is a key, or a key and one suffix, of either table. *)
Lemma resolved_name_has_key name slug :
  get_area_slug name = Some slug →
  ∃ base,
    (base = name ∨ ∃ sfx, sfx ∈ SUFFIXES ∧ name = base ++ sfx) ∧
    (PREFECTURE_MAPPING !! base = Some slug ∨ CITY_MAPPING !! base = Some slug).
Proof.
  intros [Hin | (base & sfx & Hsfx & Hname & Hin)]%suffix_stripping_core.
  - exists name. split; [left; reflexivity | exact (in_tables_key _ _ Hin)].
  - exists base. split; [|exact (in_tables_key _ _ Hin)].
    right. exists sfx. split; [exact Hsfx | exact Hname].
Qed.

(** X1. A key of either table followed by any one of the four suffixes
    resolves to the slug of that key, also when the longer name is itself
    a key. *)
Theorem key_with_suffix_resolves key slug sfx :
  PREFECTURE_MAPPING !! key = Some slug ∨ CITY_MAPPING !! key = Some slug →
  sfx ∈ SUFFIXES →
  get_area_slug (key ++ sfx) = Some slug.
Proof.
  intros Hkey%table_key_in_items Hsfx.
  assert (Forall (λ kv, Forall (λ sfx, get_area_slug (kv.1 ++ sfx) = Some kv.2) SUFFIXES)
            (PREFECTURE_ITEMS ++ CITY_ITEMS)) as Hall by by_evaluation.
  rewrite Forall_forall in Hall. specialize (Hall _ Hkey).
  rewrite Forall_forall in Hall. exact (Hall _ Hsfx).
Qed.

Lemma key_with_suffix_resolves_witness :
  get_area_slug (u "東京" ++ u "都") = Some (u "tokyo") ∧
  get_area_slug (u "沖縄県" ++ u "市") = Some (u "okinawa").
Proof.
  split.
  - apply key_with_suffix_resolves.
    + right. reflexivity.
    + apply (bool_decide_unpack _). vm_compute. exact I.
  - apply key_with_suffix_resolves.
    + left. reflexivity.
    + apply (bool_decide_unpack _). vm_compute. exact I.
Defined.

Lemma get_area_slug_table_key name slug :
  PREFECTURE_MAPPING !! name = Some slug ∨ CITY_MAPPING !! name = Some slug →
  get_area_slug name = Some slug.
Proof.
  intros [Hp | [Hp Hc]]%in_tables_of_key; unfold get_area_slug.
  - rewrite Hp. reflexivity.
  - rewrite Hp, Hc. reflexivity.
Qed.

(** X2. The order of the lookups never shows: a name resolves to a slug
    exactly when the name itself, or the name without one of the four
    suffixes at its end, is a key of either table with that slug.  Whenever
    several of these rules apply they give the same slug. *)
Theorem get_area_slug_order_free name slug :
  get_area_slug name = Some slug ↔
  ∃ base,
    (base = name ∨ ∃ sfx, sfx ∈ SUFFIXES ∧ name = base ++ sfx) ∧
    (PREFECTURE_MAPPING !! base = Some slug ∨ CITY_MAPPING !! base = Some slug).
Proof.
  split; [apply resolved_name_has_key|].
  intros (base & [-> | (sfx & Hsfx & ->)] & Hkey).
  - exact (get_area_slug_table_key _ _ Hkey).
  - apply table_key_in_items in Hkey.
    assert (Forall (λ kv, Forall (λ sfx, get_area_slug (kv.1 ++ sfx) = Some kv.2) SUFFIXES)
              (PREFECTURE_ITEMS ++ CITY_ITEMS)) as Hall by by_evaluation.
    rewrite Forall_forall in Hall. specialize (Hall _ Hkey).
    rewrite Forall_forall in Hall. exact (Hall _ Hsfx).
Qed.

Lemma get_area_slug_order_free_witness :
  get_area_slug (u "京都市") = Some (u "kyoto") ∧
  ∃ base,
    (base = u "福岡県" ∨ ∃ sfx, sfx ∈ SUFFIXES ∧ u "福岡県" = base ++ sfx) ∧
    (PREFECTURE_MAPPING !! base = Some (u "fukuoka") ∨
     CITY_MAPPING !! base = Some (u "fukuoka")).
Proof.
  split.
  - apply get_area_slug_order_free. exists (u "京都"). split.
    + right. exists (u "市"). split; [|reflexivity].
      apply (bool_decide_unpack _). vm_compute. exact I.
    + right. reflexivity.
  - apply get_area_slug_order_free. reflexivity.
Defined.

(** Every slug of [CITY_MAPPING] is the slug of a full name. *)
Lemma city_slug_is_prefecture_slug key slug :
  CITY_MAPPING !! key = Some slug → ∃ full, PREFECTURE_MAPPING !! full = Some slug.
Proof.
  intros Hk%CITY_MAPPING_items.
  assert (Forall (λ kv, kv.2 ∈ PREFECTURE_ITEMS.*2) CITY_ITEMS)
    as Hall by by_evaluation.
  rewrite Forall_forall in Hall. specialize (Hall _ Hk).
  apply list_elem_of_fmap in Hall as ([full slug'] & Heq & Hin).
  simpl in Heq. subst slug'. exists full. apply PREFECTURE_MAPPING_items. exact Hin.
Qed.

(** X3. Whatever the input, a slug that [get_area_slug] returns is the
    slug of one of the 47 full names of [PREFECTURE_MAPPING], and a
    lowercase ASCII string. *)
Theorem get_area_slug_range name slug :
  get_area_slug name = Some slug →
  (∃ full, PREFECTURE_MAPPING !! full = Some slug) ∧ is_lower_ascii_slug slug.
Proof.
  intros (base & _ & Hkey)%resolved_name_has_key.
  assert (∃ full, PREFECTURE_MAPPING !! full = Some slug) as [full Hfull].
  { destruct Hkey as [Hp | Hc]; [by exists base|].
    exact (city_slug_is_prefecture_slug _ _ Hc). }
  split; [by exists full|].
  clear Hkey. revert full slug Hfull.
  apply (dict_literal_Forall (λ _ slug, is_lower_ascii_slug slug)). by_evaluation.
Qed.

Lemma get_area_slug_range_witness :
  (∃ full, PREFECTURE_MAPPING !! full = Some (u "osaka")) ∧
  is_lower_ascii_slug (u "osaka").
Proof. apply (get_area_slug_range (u "大阪市")). reflexivity. Defined.

(** Every slug of either table is a lowercase ASCII string. *)
Lemma table_slug_lower_ascii key slug :
  PREFECTURE_MAPPING !! key = Some slug ∨ CITY_MAPPING !! key = Some slug →
  is_lower_ascii_slug slug.
Proof.
  intros Hkey%table_key_in_items.
  assert (Forall (λ kv, is_lower_ascii_slug kv.2) (PREFECTURE_ITEMS ++ CITY_ITEMS))
    as Hall by by_evaluation.
  rewrite Forall_forall in Hall. exact (Hall _ Hkey).
Qed.

Lemma resolved_name_kanji name slug :
  get_area_slug name = Some slug → Forall is_kanji name ∧ 2 ≤ length name ≤ 5.
Proof.
  intros (base & Hname & Hkey%table_key_in_items)%resolved_name_has_key.
  assert (Forall (λ kv, Forall is_kanji kv.1 ∧ 2 ≤ length kv.1 ≤ 4)
            (PREFECTURE_ITEMS ++ CITY_ITEMS)) as Hkeys by by_evaluation.
  rewrite Forall_forall in Hkeys. destruct (Hkeys _ Hkey) as [Hbase Hlen].
  simpl in Hbase, Hlen.
  destruct Hname as [<- | (sfx & Hsfx & ->)]; [split; [exact Hbase | lia]|].
  assert (Forall (λ sfx, Forall is_kanji sfx ∧ length sfx = 1) SUFFIXES)
    as Hsfxs by by_evaluation.
  rewrite Forall_forall in Hsfxs. destruct (Hsfxs _ Hsfx) as [Hkanji Hone].
  split; [apply Forall_app; split; [exact Hbase | exact Hkanji]|].
  rewrite length_app. lia.
Qed.

(** X4. Only names written in kanji resolve: a name that resolves holds
    between two and five characters, each of them a CJK ideograph, so a
    name with a Latin letter, a digit, a kana, a space or punctuation
    anywhere gives [None].  The slug that comes back does not resolve. *)
Theorem get_area_slug_kanji_only name slug :
  get_area_slug name = Some slug →
  Forall is_kanji name ∧ 2 ≤ length name ≤ 5 ∧ get_area_slug slug = None.
Proof.
  intros Hres. destruct (resolved_name_kanji _ _ Hres) as [Hkanji Hlen].
  split_and!; [exact Hkanji | lia | lia |].
  destruct (get_area_slug slug) as [again|] eqn:Hagain; [exfalso | reflexivity].
  destruct (resolved_name_has_key _ _ Hres) as (base & _ & Hkey).
  destruct (table_slug_lower_ascii _ _ Hkey) as [Hne Hascii].
  destruct (resolved_name_kanji _ _ Hagain) as [Hslug _].
  destruct slug as [|c slug]; [done|].
  apply Forall_inv in Hascii, Hslug. unfold is_kanji in Hslug. lia.
Qed.

Lemma get_area_slug_kanji_only_witness :
  Forall is_kanji (u "和歌山県") ∧ 2 ≤ length (u "和歌山県") ≤ 5 ∧
  get_area_slug (u "wakayama") = None.
Proof. apply (get_area_slug_kanji_only _ (u "wakayama")). reflexivity. Defined.

(** X5. There is no lookup by prefix: a full name of [PREFECTURE_MAPPING]
    without its last character resolves exactly when [CITY_MAPPING] lists
    the short form, and then to the slug of the full name.  三重 and 神奈川
    do not resolve. *)
Theorem short_prefecture_names full slug :
  PREFECTURE_MAPPING !! full = Some slug →
  get_area_slug (slice_to full (-1)) = CITY_MAPPING !! slice_to full (-1) ∧
  (get_area_slug (slice_to full (-1)) = None ∨
   get_area_slug (slice_to full (-1)) = Some slug).
Proof.
  revert full slug.
  apply (dict_literal_Forall
           (λ full slug,
              get_area_slug (slice_to full (-1)) = CITY_MAPPING !! slice_to full (-1) ∧
              (get_area_slug (slice_to full (-1)) = None ∨
               get_area_slug (slice_to full (-1)) = Some slug))).
  by_evaluation.
Qed.

Lemma short_prefecture_names_witness :
  (get_area_slug (u "三重") = None ∧ get_area_slug (u "神奈川") = None) ∧
  get_area_slug (u "大阪") = Some (u "osaka").
Proof.
  destruct (short_prefecture_names (u "三重県") (u "mie") eq_refl) as [Hmie _].
  destruct (short_prefecture_names (u "神奈川県") (u "kanagawa") eq_refl) as [Hkana _].
  destruct (short_prefecture_names (u "大阪府") (u "osaka") eq_refl) as [Hosaka _].
  split; [split|]; [exact Hmie | exact Hkana | exact Hosaka].
Defined.

(** ** [call_tool] and the declarations of [list_tools] *)




(** X7. The declared defaults are the ones in force: leaving [sort] out
    is the same call as [sort="ranking"], leaving [limit] out is the same
    call as [limit=20], and a call with neither returns the first 20
    restaurants of the answer to a request sorted by ranking. *)
Theorem declared_defaults_in_force `{Imports} (arguments : gmap str PyVal) :
  (arguments !! u "sort" = None →
   _search_restaurants (<[u "sort" := VStr SORT_DEFAULT]> arguments) =
   _search_restaurants arguments) ∧
  (arguments !! u "limit" = None →
   _search_restaurants (<[u "limit" := VInt LIMIT_DEFAULT]> arguments) =
   _search_restaurants arguments) ∧
  (∀ response,
     arguments !! u "sort" = None → arguments !! u "limit" = None →
     search (built_request arguments RANKING) = Ok response →
     _search_restaurants arguments =
     Ok (text_result (restaurant_dict <$> take 20 (SearchResponse.restaurants response)))).
Proof.
  split_and!.
  - intros Hsort. unfold _search_restaurants.
    rewrite lookup_insert_eq, Hsort.
    rewrite !(lookup_insert_ne _ (u "sort")) by (vm_compute; discriminate).
    reflexivity.
  - intros Hlimit. unfold _search_restaurants.
    rewrite lookup_insert_eq, Hlimit.
    rewrite !(lookup_insert_ne _ (u "limit")) by (vm_compute; discriminate).
    reflexivity.
  - intros response Hsort Hlimit Hsearch.
    rewrite _search_restaurants_run, Hsort, Hlimit.
    change (resolve_sort_type (default (VStr (u "ranking")) None)) with (Ok RANKING).
    cbn [mbind result_bind]. rewrite Hsearch. reflexivity.
Qed.

Lemma declared_defaults_in_force_witness :
  @_search_restaurants doubles.imports {[ u "limit" := VInt 20 ]}
    = @_search_restaurants doubles.imports ∅ ∧
  @_search_restaurants doubles.imports ∅
    = Ok (@text_result doubles.imports (restaurant_dict <$> doubles.sample_restaurants)).
Proof.
  destruct (@declared_defaults_in_force doubles.imports ∅) as (_ & Hlimit & Hboth).
  split.
  - apply Hlimit. reflexivity.
  - apply (Hboth (SearchResponse.make doubles.sample_restaurants)); reflexivity.
Defined.

(** X8. Each token of the declared [sort] enumeration selects a sort type
    of its own, and every sort type is selected by one of them: no token
    falls back to the default by a misspelt key of [sort_map]. *)
Theorem sort_tokens_one_to_one :
  (∀ sort_type, ∃ token,
     token ∈ SORT_ENUM ∧ resolve_sort_type (VStr token) = Ok sort_type) ∧
  (∀ a b, a ∈ SORT_ENUM → b ∈ SORT_ENUM →
     resolve_sort_type (VStr a) = resolve_sort_type (VStr b) → a = b) ∧
  (∀ token, token ∈ SORT_ENUM → sort_map !! token ≠ None).
Proof.
  split_and!.
  - intros [];
      [ exists (u "ranking") | exists (u "review-count")
      | exists (u "new-open") | exists (u "standard") ];
      (split; [by_evaluation | vm_compute; reflexivity]).
  - assert (Forall (λ a, Forall (λ b,
              default RANKING (sort_map !! lower a) =
              default RANKING (sort_map !! lower b) → a = b)
              SORT_ENUM) SORT_ENUM) as Hall by by_evaluation.
    intros a b Ha Hb. rewrite !resolve_sort_type_str. intros [= Hsame].
    rewrite Forall_forall in Hall. specialize (Hall _ Ha).
    rewrite Forall_forall in Hall. exact (Hall _ Hb Hsame).
  - assert (Forall (λ token, sort_map !! token ≠ None) SORT_ENUM)
      as Hall by by_evaluation.
    intros token Htoken. rewrite Forall_forall in Hall. exact (Hall _ Htoken).
Qed.

Lemma sort_tokens_one_to_one_witness :
  u "new-open" = u "new-open" ∧ sort_map !! u "standard" ≠ None.
Proof.
  destruct sort_tokens_one_to_one as (_ & Hinj & Hkeys).
  split.
  - apply Hinj; [| |reflexivity]; apply (bool_decide_unpack _); vm_compute; exact I.
  - apply Hkeys. apply (bool_decide_unpack _). vm_compute. exact I.
Defined.

(** ** [_search_restaurants]: errors, slices and empty arguments *)








(** X11. A [cuisine] that is absent, [null] or the empty string is no
    cuisine: the genre table is not consulted and the call is the one
    without the argument. *)
Theorem search_empty_cuisine_ignored `{Imports}
  (arguments : gmap str PyVal) (cuisine : PyVal) :
  truthy cuisine = false →
  _search_restaurants (<[u "cuisine" := cuisine]> arguments) =
  _search_restaurants (delete (u "cuisine") arguments).
Proof.
  intros Hfalsy. unfold _search_restaurants.
  rewrite lookup_insert_eq, lookup_delete_eq.
  rewrite !(lookup_insert_ne _ (u "cuisine")) by (vm_compute; discriminate).
  rewrite !(lookup_delete_ne _ (u "cuisine")) by (vm_compute; discriminate).
  cbn [from_option id truthy]. rewrite Hfalsy. reflexivity.
Qed.

Lemma search_empty_cuisine_ignored_witness :
  @_search_restaurants doubles.imports (<[u "cuisine" := VStr (u "")]> ∅) =
  @_search_restaurants doubles.imports (delete (u "cuisine") ∅).
Proof. apply (@search_empty_cuisine_ignored doubles.imports). reflexivity. Defined.

(** ** [analyze_results] of [scripts/verify_js_rendering.py] *)

Section analyze_results_facts.
Import verify_js_rendering.
Context `{FloatOps}.

Lemma filter_always {A} (l : list A) : filter (λ _, Is_true true) l = l.
Proof.
  induction l as [|x l IH]; [reflexivity|].
  rewrite filter_cons_True by exact I. by rewrite IH.
Qed.

(** Three tests of which at most one holds of any element select
    disjoint parts of a list, also among the elements that pass a fourth. *)
Lemma exclusive_filters_length {A} (p q r s : A → bool) (l : list A) :
  (∀ x, p x && q x = false ∧ p x && r x = false ∧ q x && r x = false) →
  length (filter (λ x, Is_true (s x)) (filter (λ x, Is_true (p x)) l))
  + length (filter (λ x, Is_true (s x)) (filter (λ x, Is_true (q x)) l))
  + length (filter (λ x, Is_true (s x)) (filter (λ x, Is_true (r x)) l))
  ≤ length (filter (λ x, Is_true (s x)) l).
Proof.
  intros Hexcl. induction l as [|x l IH]; [reflexivity|].
  destruct (Hexcl x) as (Hpq & Hpr & Hqr).
  destruct (p x) eqn:Hp, (q x) eqn:Hq, (r x) eqn:Hr; try discriminate;
    destruct (s x) eqn:Hs;
    repeat match goal with
    | |- context [filter ?P (x :: ?k)] =>
      first [ rewrite (filter_cons_True P x k)
                by (cbn beta; rewrite ?Hp, ?Hq, ?Hr, ?Hs; exact I)
            | rewrite (filter_cons_False P x k)
                by (cbn beta; rewrite ?Hp, ?Hq, ?Hr, ?Hs; exact id) ]
    end;
    cbn [length]; lia.
Qed.

Lemma analyze_results_Returned results a :
  analyze_results results = Returned a →
  results ≠ [] ∧
  Analysis.total_tests a = Z.of_nat (length results) ∧
  Analysis.successful a = count_successful results ∧
  Analysis.failed a = (Z.of_nat (length results) - count_successful results)%Z ∧
  Analysis.by_type a =
    ByType.make
      (type_count (filter (λ r, Is_true (given (TestResult.area r)
                                   && negb (given (TestResult.keyword r))
                                   && negb (given (TestResult.cuisine r)))) results))
      (type_count (filter (λ r, Is_true (given (TestResult.cuisine r)
                                   && negb (given (TestResult.area r))
                                   && negb (given (TestResult.keyword r)))) results))
      (type_count (filter (λ r, Is_true (given (TestResult.area r)
                                   && given (TestResult.cuisine r))) results))
      (type_count (filter (λ r, Is_true (given (TestResult.area r)
                                   && given (TestResult.keyword r))) results)) ∧
  Analysis.total_restaurants_found a =
    foldr Z.add 0%Z (TestResult.restaurant_count <$> results).
Proof.
  unfold analyze_results, truediv.
  destruct results as [|r results]; [discriminate|].
  replace (Z.of_nat (length (r :: results)) =? 0)%Z with false
    by (symmetry; apply Z.eqb_neq; cbn [length]; lia).
  intros [= <-]. split_and!; [discriminate | reflexivity..].
Qed.

End analyze_results_facts.

Section analyze_results_properties.
Import verify_js_rendering.
Context `{FloatOps}.

(** X12. [analyze_results] raises [ZeroDivisionError] exactly on the empty
    list of results: the success rate is guarded against no results, the
    average duration is not. *)
Theorem analyze_results_empty (results : list TestResult.t) :
  analyze_results results = ZeroDivisionError ↔ results = [].
Proof.
  split; [|intros ->; reflexivity].
  destruct results as [|r results]; [reflexivity|].
  unfold analyze_results, truediv.
  replace (Z.of_nat (length (r :: results)) =? 0)%Z with false
    by (symmetry; apply Z.eqb_neq; cbn [length]; lia).
  discriminate.
Qed.

Lemma filter_all {A} (p : A → bool) (l : list A) :
  Forall (λ x, p x = true) l → filter (λ x, Is_true (p x)) l = l.
Proof.
  induction 1 as [|x l Hx _ IH]; [reflexivity|].
  rewrite filter_cons_True by (rewrite Hx; exact I). by rewrite IH.
Qed.

Lemma filter_none {A} (p : A → bool) (l : list A) :
  Forall (λ x, p x = false) l → filter (λ x, Is_true (p x)) l = [].
Proof.
  induction 1 as [|x l Hx _ IH]; [reflexivity|].
  rewrite filter_cons_False by (rewrite Hx; exact id). exact IH.
Qed.

(** X13. The counts of a returned analysis add up: there is at least one
    test, successes and failures are non-negative and sum to the total,
    every category holds no more successes than tests and no more tests
    than the total, the categories area-only, cuisine-only and area+cuisine
    (or area+keyword) do not overlap, and their successes are among the
    overall successes. *)
Theorem analyze_results_counts (results : list TestResult.t) (a : Analysis.t) :
  analyze_results results = Returned a →
  (Analysis.total_tests a = Z.of_nat (length results) ∧
   0 < Analysis.total_tests a ∧
   0 ≤ Analysis.successful a ∧ 0 ≤ Analysis.failed a ∧
   Analysis.successful a + Analysis.failed a = Analysis.total_tests a)%Z ∧
  Forall (λ c, 0 ≤ TypeCount.successful c ≤ TypeCount.total c ∧
               TypeCount.total c ≤ Analysis.total_tests a)%Z
    [ ByType.area_only (Analysis.by_type a); ByType.cuisine_only (Analysis.by_type a);
      ByType.area_cuisine (Analysis.by_type a); ByType.area_keyword (Analysis.by_type a) ] ∧
  (TypeCount.total (ByType.area_only (Analysis.by_type a))
   + TypeCount.total (ByType.cuisine_only (Analysis.by_type a))
   + TypeCount.total (ByType.area_cuisine (Analysis.by_type a))
   ≤ Analysis.total_tests a)%Z ∧
  (TypeCount.total (ByType.area_only (Analysis.by_type a))
   + TypeCount.total (ByType.cuisine_only (Analysis.by_type a))
   + TypeCount.total (ByType.area_keyword (Analysis.by_type a))
   ≤ Analysis.total_tests a)%Z ∧
  (TypeCount.successful (ByType.area_only (Analysis.by_type a))
   + TypeCount.successful (ByType.cuisine_only (Analysis.by_type a))
   + TypeCount.successful (ByType.area_cuisine (Analysis.by_type a))
   ≤ Analysis.successful a)%Z.
Proof.
  intros (Hne & -> & -> & -> & -> & _)%analyze_results_Returned.
  unfold type_count, count_successful.
  cbn [ByType.area_only ByType.cuisine_only ByType.area_cuisine ByType.area_keyword].
  set (area_only := λ r, given (TestResult.area r)
                          && negb (given (TestResult.keyword r))
                          && negb (given (TestResult.cuisine r))).
  set (cuisine_only := λ r, given (TestResult.cuisine r)
                             && negb (given (TestResult.area r))
                             && negb (given (TestResult.keyword r))).
  set (area_cuisine := λ r, given (TestResult.area r) && given (TestResult.cuisine r)).
  set (area_keyword := λ r, given (TestResult.area r) && given (TestResult.keyword r)).
  assert (∀ r, area_only r && cuisine_only r = false ∧
               area_only r && area_cuisine r = false ∧
               cuisine_only r && area_cuisine r = false) as Hcuisine.
  { intros r. unfold area_only, cuisine_only, area_cuisine.
    by destruct (given (TestResult.area r)), (given (TestResult.keyword r)),
         (given (TestResult.cuisine r)). }
  assert (∀ r, area_only r && cuisine_only r = false ∧
               area_only r && area_keyword r = false ∧
               cuisine_only r && area_keyword r = false) as Hkeyword.
  { intros r. unfold area_only, cuisine_only, area_keyword.
    by destruct (given (TestResult.area r)), (given (TestResult.keyword r)),
         (given (TestResult.cuisine r)). }
  pose proof (exclusive_filters_length _ _ _ (λ _, true) results Hcuisine) as Htotal.
  pose proof (exclusive_filters_length _ _ _ (λ _, true) results Hkeyword) as Htotal'.
  pose proof (exclusive_filters_length _ _ _ TestResult.success results Hcuisine)
    as Hsucc.
  rewrite !filter_always in Htotal, Htotal'.
  pose proof (length_filter (λ r, Is_true (TestResult.success r)) results).
  pose proof (λ p, length_filter (λ r, Is_true (TestResult.success r))
                     (filter (λ r, Is_true (p r)) results)) as Hin.
  pose proof (λ p, length_filter (λ r : TestResult.t, Is_true (p r)) results) as Hof.
  pose proof (Hin area_only). pose proof (Hin cuisine_only).
  pose proof (Hin area_cuisine). pose proof (Hin area_keyword).
  pose proof (Hof area_only). pose proof (Hof cuisine_only).
  pose proof (Hof area_cuisine). pose proof (Hof area_keyword).
  assert (0 < length results) by (destruct results; [done | cbn [length]; lia]).
  clear Hin Hof Hcuisine Hkeyword.
  subst area_only cuisine_only area_cuisine area_keyword. cbn beta in *.
  split_and!; try (cbn [TypeCount.total TypeCount.successful]; lia).
  repeat constructor; cbn [TypeCount.total TypeCount.successful]; lia.
Qed.

(** X14. The categories are no partition of the tests.  When every result
    has an area, a cuisine and a keyword, each result is counted under
    area+cuisine and again under area+keyword; when no result has an area
    or a cuisine (keyword-only searches), no category counts anything. *)
Theorem analyze_results_categories (results : list TestResult.t) (a : Analysis.t) :
  analyze_results results = Returned a →
  (Forall (λ r, given (TestResult.area r) && given (TestResult.cuisine r)
                && given (TestResult.keyword r) = true) results →
   TypeCount.total (ByType.area_cuisine (Analysis.by_type a)) = Analysis.total_tests a ∧
   TypeCount.total (ByType.area_keyword (Analysis.by_type a)) = Analysis.total_tests a) ∧
  (Forall (λ r, given (TestResult.area r) || given (TestResult.cuisine r) = false)
     results →
   Forall (λ c, TypeCount.total c = 0%Z)
     [ ByType.area_only (Analysis.by_type a); ByType.cuisine_only (Analysis.by_type a);
       ByType.area_cuisine (Analysis.by_type a); ByType.area_keyword (Analysis.by_type a) ]).
Proof.
  intros (_ & -> & _ & _ & -> & _)%analyze_results_Returned.
  unfold type_count.
  cbn [ByType.area_only ByType.cuisine_only ByType.area_cuisine ByType.area_keyword
       TypeCount.total].
  split.
  - intros Hall. rewrite !filter_all; [done | |].
    + eapply Forall_impl; [exact Hall|]. intros r. cbn beta.
      by destruct (given (TestResult.area r)), (given (TestResult.cuisine r)),
           (given (TestResult.keyword r)).
    + eapply Forall_impl; [exact Hall|]. intros r. cbn beta.
      by destruct (given (TestResult.area r)), (given (TestResult.cuisine r)),
           (given (TestResult.keyword r)).
  - intros Hnone. rewrite !filter_none; [repeat constructor | | | |].
    all: eapply Forall_impl; [exact Hnone|]; intros r; cbn beta.
    all: by destruct (given (TestResult.area r)), (given (TestResult.cuisine r)),
              (given (TestResult.keyword r)).
Qed.

End analyze_results_properties.

Lemma analyze_results_empty_witness :
  @verify_js_rendering.analyze_results no_floats [] = verify_js_rendering.ZeroDivisionError.
Proof. apply (@analyze_results_empty no_floats). reflexivity. Defined.

Lemma analyze_results_counts_witness :
  @verify_js_rendering.analyze_results no_floats script_doubles.sample_results
    = verify_js_rendering.Returned script_doubles.sample_analysis ∧
  (verify_js_rendering.Analysis.successful script_doubles.sample_analysis
   + verify_js_rendering.Analysis.failed script_doubles.sample_analysis
   = verify_js_rendering.Analysis.total_tests script_doubles.sample_analysis)%Z.
Proof.
  split; [reflexivity|].
  destruct (@analyze_results_counts no_floats script_doubles.sample_results
              script_doubles.sample_analysis eq_refl) as ((_ & _ & _ & _ & Hsum) & _).
  exact Hsum.
Defined.

Lemma analyze_results_categories_witness :
  Forall (λ c, verify_js_rendering.TypeCount.total c = 0%Z)
    [ verify_js_rendering.TypeCount.make 0 0; verify_js_rendering.TypeCount.make 0 0;
      verify_js_rendering.TypeCount.make 0 0; verify_js_rendering.TypeCount.make 0 0 ].
Proof.
  destruct (@analyze_results_categories no_floats script_doubles.keyword_only_results
              _ eq_refl) as [_ Hnone].
  apply Hnone. repeat constructor.
Defined.
